(** * Pizza restaurants API: a shallow embedding of server/models.py and
      server/app.py, and the properties of its request handlers.

    The three tables are finite maps from primary key to row, the SQLAlchemy
    session is an explicit state threaded through a small state-and-exception
    monad, Python values coming from the request body keep their dynamic
    type, and every handler is a function from the durable store to a
    response (or an exception leaving the handler) and the new store. *)

From Stdlib Require Import ZArith QArith.QArith_base QArith.Qround Lia.
From stdpp Require Import gmap strings list fin_maps pretty.

Set Warnings "-register-all".
Local Open Scope string_scope.
Local Open Scope Z_scope.

(** ** Python values and exceptions *)

(** A Python float: a finite double is a rational number, and the json
    module also reads the literals Infinity, -Infinity and NaN. *)
Inductive pyfloat : Type :=
| Finite (q : Q)
| Infinity (negative : bool)
| NaN.

(** What [request.get_json()] can hand to the handler. *)
Inductive pyval : Type :=
| PNone
| PBool (b : bool)
| PInt (z : Z)
| PFloat (f : pyfloat)
| PStr (s : string)
| PList (l : list pyval)
| PDict (kv : list (string * pyval)).

(** The exception classes that occur on the paths of app.py. [BadRequest]
    and [UnsupportedMediaType] are what [get_json] raises on a body it
    cannot decode; [IntegrityError] is what the store raises on a violated
    constraint. *)
Inductive exn : Type :=
| ValueError
| TypeError
| AttributeError
| IntegrityError
| MultipleResultsFound
| BadRequest
| UnsupportedMediaType.

(** [except ValueError] *)
Definition is_ValueError (e : exn) : bool :=
  match e with ValueError => true | _ => false end.

(** [except Exception]: every class above derives from Exception. *)
Definition is_Exception (e : exn) : bool := true.

Inductive result (A : Type) : Type :=
| Return (a : A)
| Raise (e : exn).
Arguments Return {A} a.
Arguments Raise {A} e.

(** ** JSON documents sent back to the client *)

Inductive json : Type :=
| JNull
| JInt (z : Z)
| JStr (s : string)
| JList (l : list json)
| JObj (members : list (string * json)).

Definition keys (j : json) : list string :=
  match j with
  | JObj members => map fst members
  | _ => []
  end.

Fixpoint assoc {A : Type} (k : string) (l : list (string * A)) : option A :=
  match l with
  | [] => None
  | (k', v) :: l' => if String.eqb k k' then Some v else assoc k l'
  end.

Definition member (k : string) (j : json) : option json :=
  match j with
  | JObj members => assoc k members
  | _ => None
  end.

Record response : Type := Response { body : json; status : Z }.

(** ** models.py: the three tables *)

(** A row of [restaurants]; the primary key [id] is the key of the table.
    The two text columns are nullable in models.py; the rows modelled here
    are those in which both hold a string. *)
Record Restaurant : Type := mkRestaurant {
  restaurant_name : string;
  restaurant_address : string
}.

(** A row of [pizzas], with both text columns holding a string. *)
Record Pizza : Type := mkPizza {
  pizza_name : string;
  pizza_ingredients : string
}.

(** A row of [restaurant_pizzas]: three Integer columns, all NOT NULL, two of
    them foreign keys. *)
Record RestaurantPizza : Type := mkRestaurantPizza {
  price : Z;
  pizza_id : Z;
  restaurant_id : Z
}.

(** The store: the three tables and, as [convert], what its engine makes
    of a bound value that is neither an int nor None when the column is an
    Integer one: the integer it stores for it, or nothing when it refuses
    the value. Neither the repository nor the spec fixes that conversion, so
    it is a parameter of the store and every statement about a store holds
    for every conversion. *)
Record db : Type := mkDb {
  restaurants : gmap Z Restaurant;
  pizzas : gmap Z Pizza;
  restaurant_pizzas : gmap Z RestaurantPizza;
  convert : pyval → option Z
}.

(** A [RestaurantPizza] object before it is flushed: its attributes hold
    whatever Python value was assigned. *)
Record RestaurantPizzaObj : Type := mkObj {
  obj_price : pyval;
  obj_pizza_id : pyval;
  obj_restaurant_id : pyval
}.

(** *** The [price] validator *)

(** [n <= value] for the int literal [n]: ints, bools (an int subclass) and
    floats compare numerically, anything else makes [<=] raise TypeError. *)
Definition int_le_py (n : Z) (value : pyval) : result bool :=
  match value with
  | PInt z => Return (n <=? z)
  | PBool b => Return (n <=? Z.b2z b)
  | PFloat (Finite q) => Return (Qle_bool (inject_Z n) q)
  | PFloat (Infinity negative) => Return (negb negative)
  | PFloat NaN => Return false
  | PNone | PStr _ | PList _ | PDict _ => Raise TypeError
  end.

(** [value <= n] for the int literal [n]. *)
Definition py_le_int (value : pyval) (n : Z) : result bool :=
  match value with
  | PInt z => Return (z <=? n)
  | PBool b => Return (Z.b2z b <=? n)
  | PFloat (Finite q) => Return (Qle_bool q (inject_Z n))
  | PFloat (Infinity negative) => Return negative
  | PFloat NaN => Return false
  | PNone | PStr _ | PList _ | PDict _ => Raise TypeError
  end.

(** [RestaurantPizza.validate_price]: the chained comparison
    [1 <= value <= 30] evaluates [1 <= value] first and [value <= 30] only
    when that is true. *)
Definition validate_price (value : pyval) : result pyval :=
  match int_le_py 1 value with
  | Raise e => Raise e
  | Return false => Raise ValueError
  | Return true =>
      match py_le_int value 30 with
      | Raise e => Raise e
      | Return false => Raise ValueError
      | Return true => Return value
      end
  end.

(** [obj.price = value]: [@validates('price')] runs the validator on every
    assignment to the attribute, and the attribute takes what the validator
    returns. *)
Definition set_price (o : RestaurantPizzaObj) (value : pyval) : result RestaurantPizzaObj :=
  match validate_price value with
  | Raise e => Raise e
  | Return v => Return (mkObj v (obj_pizza_id o) (obj_restaurant_id o))
  end.

(** [RestaurantPizza(price=..., pizza_id=..., restaurant_id=...)]: the
    declarative constructor assigns each keyword argument to the new
    object; the two foreign-key columns have no validator. *)
Definition RestaurantPizza_init (p pid rid : pyval) : result RestaurantPizzaObj :=
  match set_price (mkObj PNone PNone PNone) p with
  | Raise e => Raise e
  | Return o => Return (mkObj (obj_price o) pid rid)
  end.

(** ** The store engine and the session *)

(** Modelled from the spec: the relational storage engine is not part of the
    repository. The spec takes it to provide primary keys, foreign keys and
    transactions, with ids store-assigned and unique, and the columns of
    [restaurant_pizzas] integer and required. [next_id] is the key the
    engine gives a new row: one more than the largest key in use. *)
Definition next_id {A : Type} (table : gmap Z A) : Z :=
  Z.succ (map_fold (fun k _ acc => Z.max k acc) 0 table).

(** Modelled from the spec: the value an Integer column of a required
    field takes for a bound Python value. An int is stored as it is (bool is
    a subclass of int) and [None] is refused, the column being NOT NULL; for
    every other value the store's own conversion decides. *)
Definition as_integer (d : db) (v : pyval) : option Z :=
  match v with
  | PInt z => Some z
  | PBool b => Some (Z.b2z b)
  | PNone => None
  | PFloat _ | PStr _ | PList _ | PDict _ => convert d v
  end.

(** Modelled from the spec: INSERT of one pending object. The engine
    refuses a NULL column, a value it cannot convert, and a foreign key
    without a referenced row; otherwise the row is stored under a fresh
    key. *)
Definition insert_row (o : RestaurantPizzaObj) (d : db) : result (Z * db) :=
  match as_integer d (obj_price o), as_integer d (obj_pizza_id o),
        as_integer d (obj_restaurant_id o) with
  | Some p, Some pid, Some rid =>
      match pizzas d !! pid, restaurants d !! rid with
      | Some _, Some _ =>
          let k := next_id (restaurant_pizzas d) in
          Return (k, mkDb (restaurants d) (pizzas d)
                          (<[k := mkRestaurantPizza p pid rid]> (restaurant_pizzas d))
                          (convert d))
      | _, _ => Raise IntegrityError
      end
  | _, _, _ => Raise IntegrityError
  end.

Fixpoint flush_new (objs : list RestaurantPizzaObj) (d : db) : result (list Z * db) :=
  match objs with
  | [] => Return ([], d)
  | o :: objs' =>
      match insert_row o d with
      | Raise e => Raise e
      | Return (k, d') =>
          match flush_new objs' d' with
          | Raise e => Raise e
          | Return (ks, d'') => Return (k :: ks, d'')
          end
      end
  end.

(** Deleting a restaurant: the relationship [Restaurant.restaurant_pizzas]
    is declared with [cascade='all, delete-orphan'], so the unit of work
    deletes every association whose [restaurant_id] is this restaurant
    together with the restaurant row. *)
Definition delete_restaurant (id : Z) (d : db) : db :=
  mkDb (delete id (restaurants d)) (pizzas d)
       (filter (fun kv => restaurant_id kv.2 ≠ id) (restaurant_pizzas d))
       (convert d).

(** [db.session]: the durable store, the objects added and not yet flushed,
    and the restaurants marked for deletion. *)
Record session : Type := mkSession {
  store : db;
  new : list RestaurantPizzaObj;
  deleted : list Z
}.

(** The session a request starts with: nothing pending. *)
Definition new_session (d : db) : session := mkSession d [] [].

(** Computations over the session that return a value or raise. *)
Definition M (A : Type) : Type := session -> result A * session.

Definition ret {A : Type} (a : A) : M A := fun s => (Return a, s).

Definition raise {A : Type} (e : exn) : M A := fun s => (Raise e, s).

Definition lift {A : Type} (r : result A) : M A := fun s => (r, s).

Definition bind {A B : Type} (m : M A) (f : A -> M B) : M B :=
  fun s =>
    match m s with
    | (Return a, s') => f a s'
    | (Raise e, s') => (Raise e, s')
    end.

Notation "x <- m ;; k" := (bind m (fun x => k))
  (at level 20, m at level 99, k at level 200, only parsing).
Notation "m ;; k" := (bind m (fun _ => k))
  (at level 100, k at level 200, only parsing, right associativity).

(** [try: body except C1: h1 except C2: h2]: the first clause whose class
    matches the exception handles it; with none the exception goes on. *)
Definition try_except {A : Type} (body : M A)
    (clauses : list ((exn -> bool) * M A)) : M A :=
  fun s =>
    match body s with
    | (Return a, s') => (Return a, s')
    | (Raise e, s') =>
        match List.find (fun c => fst c e) clauses with
        | Some c => snd c s'
        | None => (Raise e, s')
        end
    end.

(** [db.session.add(obj)] *)
Definition session_add (o : RestaurantPizzaObj) : M unit :=
  fun s => (Return tt, mkSession (store s) (new s ++ [o]) (deleted s)).

(** [db.session.delete(restaurant)] *)
Definition session_delete (id : Z) : M unit :=
  fun s => (Return tt, mkSession (store s) (new s) (deleted s ++ [id])).

(** [db.session.commit()]: one transaction. Either every pending change
    reaches the store, or the store is left as it was and the exception is
    raised with the changes still pending. The keys given to the new objects
    are returned in the order the objects were added. *)
Definition session_commit : M (list Z) :=
  fun s =>
    match flush_new (new s) (store s) with
    | Raise e => (Raise e, s)
    | Return (ks, d) =>
        (Return ks, mkSession (foldr delete_restaurant d (deleted s)) [] [])
    end.

(** [db.session.rollback()] *)
Definition session_rollback : M unit :=
  fun s => (Return tt, mkSession (store s) [] []).

(** [Query.all()] on a table. *)
Definition query_all {A : Type} (table : gmap Z A) : list (Z * A) :=
  map_to_list table.

(** [Query.one_or_none()] *)
Definition one_or_none {A : Type} (rows : list A) : result (option A) :=
  match rows with
  | [] => Return None
  | [r] => Return (Some r)
  | _ :: _ :: _ => Raise MultipleResultsFound
  end.

(** [Restaurant.query.filter(Restaurant.id == id).one_or_none()] *)
Definition query_restaurant (id : Z) : M (option (Z * Restaurant)) :=
  fun s =>
    (one_or_none (query_all (filter (fun kv => kv.1 = id) (restaurants (store s)))), s).

(** The collection behind [restaurant.restaurant_pizzas]. *)
Definition restaurant_pizzas_of (d : db) (id : Z) : list (Z * RestaurantPizza) :=
  query_all (filter (fun kv => restaurant_id kv.2 = id) (restaurant_pizzas d)).

(** ** Serialization ([SerializerMixin.to_dict])

    The members of a JSON object are unordered; the serializers list the
    columns in declaration order, then the relationships. *)

(** [restaurant.to_dict(rules=('-restaurant_pizzas',))], which is also how a
    restaurant is nested under an association: there the rule
    ['-restaurant.restaurant_pizzas'] removes the collection. *)
Definition Restaurant_to_dict_flat (id : Z) (r : Restaurant) : json :=
  JObj [("id", JInt id); ("name", JStr (restaurant_name r));
        ("address", JStr (restaurant_address r))].

(** [pizza.to_dict(rules=('-restaurant_pizzas',))], and a pizza nested
    under an association (rule ['-pizza.restaurant_pizzas']). *)
Definition Pizza_to_dict_flat (id : Z) (p : Pizza) : json :=
  JObj [("id", JInt id); ("name", JStr (pizza_name p));
        ("ingredients", JStr (pizza_ingredients p))].

(** The many-to-one side of a relationship: the referenced row, or null. *)
Definition nested_pizza (d : db) (pid : Z) : json :=
  match pizzas d !! pid with
  | Some p => Pizza_to_dict_flat pid p
  | None => JNull
  end.

Definition nested_restaurant (d : db) (rid : Z) : json :=
  match restaurants d !! rid with
  | Some r => Restaurant_to_dict_flat rid r
  | None => JNull
  end.

(** [restaurant_pizza.to_dict()] with the class rules
    [('-pizza.restaurant_pizzas', '-restaurant.restaurant_pizzas')]. *)
Definition RestaurantPizza_to_dict (d : db) (id : Z) (rp : RestaurantPizza) : json :=
  JObj [("id", JInt id); ("price", JInt (price rp));
        ("pizza_id", JInt (pizza_id rp));
        ("restaurant_id", JInt (restaurant_id rp));
        ("pizza", nested_pizza d (pizza_id rp));
        ("restaurant", nested_restaurant d (restaurant_id rp))].

(** An association nested under its restaurant: the restaurant's rule
    ['-restaurant_pizzas.restaurant'] removes the back-reference, the
    association's own rules still apply to the pizza. *)
Definition RestaurantPizza_to_dict_nested (d : db) (id : Z) (rp : RestaurantPizza) : json :=
  JObj [("id", JInt id); ("price", JInt (price rp));
        ("pizza_id", JInt (pizza_id rp));
        ("restaurant_id", JInt (restaurant_id rp));
        ("pizza", nested_pizza d (pizza_id rp))].

(** [restaurant.to_dict()] with the class rule
    [('-restaurant_pizzas.restaurant',)]. *)
Definition Restaurant_to_dict (d : db) (id : Z) (r : Restaurant) : json :=
  JObj [("id", JInt id); ("name", JStr (restaurant_name r));
        ("address", JStr (restaurant_address r));
        ("restaurant_pizzas",
         JList (map (fun kv => RestaurantPizza_to_dict_nested d kv.1 kv.2)
                    (restaurant_pizzas_of d id)))].

(** ** app.py: the resources *)

Definition not_found : json := JObj [("error", JStr "Restaurant not found")].

Definition validation_errors : json :=
  JObj [("errors", JList [JStr "validation errors"])].

(** [Restaurants.get] *)
Definition Restaurants_get : M response :=
  fun s =>
    (Return (Response
       (JList (map (fun kv => Restaurant_to_dict_flat kv.1 kv.2)
                   (query_all (restaurants (store s))))) 200), s).

(** [RestaurantById.get] *)
Definition RestaurantById_get (id : Z) : M response :=
  restaurant <- query_restaurant id ;;
  match restaurant with
  | None => ret (Response not_found 404)
  | Some (k, r) => fun s => (Return (Response (Restaurant_to_dict (store s) k r) 200), s)
  end.

(** [RestaurantById.delete] *)
Definition RestaurantById_delete (id : Z) : M response :=
  restaurant <- query_restaurant id ;;
  match restaurant with
  | None => ret (Response not_found 404)
  | Some (k, _) =>
      session_delete k ;;
      session_commit ;;
      ret (Response (JStr "") 204)
  end.

(** [Pizzas.get] *)
Definition Pizzas_get : M response :=
  fun s =>
    (Return (Response
       (JList (map (fun kv => Pizza_to_dict_flat kv.1 kv.2)
                   (query_all (pizzas (store s))))) 200), s).

(** [data.get(key)]: only a dict has the method; a missing key gives None.
    The first binding of a key stands for the dict's only one. *)
Definition dict_get (data : pyval) (key : string) : result pyval :=
  match data with
  | PDict kv => Return (default PNone (assoc key kv))
  | _ => Raise AttributeError
  end.

(** After the commit the object is persistent under the key the store gave
    it, and its attributes are loaded from its row when [to_dict] reads
    them. *)
Definition persistent_row (ks : list Z) : M (Z * RestaurantPizza) :=
  fun s =>
    match ks with
    | [k] =>
        match restaurant_pizzas (store s) !! k with
        | Some rp => (Return (k, rp), s)
        | None => (Raise AttributeError, s)
        end
    | _ => (Raise AttributeError, s)
    end.

(** The body of the [try] statement of [RestaurantPizzas.post]. *)
Definition post_try (data : pyval) : M response :=
  p <- lift (dict_get data "price") ;;
  pid <- lift (dict_get data "pizza_id") ;;
  rid <- lift (dict_get data "restaurant_id") ;;
  restaurant_pizza <- lift (RestaurantPizza_init p pid rid) ;;
  session_add restaurant_pizza ;;
  ks <- session_commit ;;
  row <- persistent_row ks ;;
  fun s => (Return (Response (RestaurantPizza_to_dict (store s) row.1 row.2) 201), s).

(** [RestaurantPizzas.post]. Its argument is the outcome of
    [request.get_json()], which is evaluated before the [try] is entered. *)
Definition RestaurantPizzas_post (get_json : result pyval) : M response :=
  data <- lift get_json ;;
  try_except (post_try data)
    [ (is_ValueError, ret (Response validation_errors 400));
      (is_Exception, (session_rollback ;; ret (Response validation_errors 400))) ].

(** ** Requests *)

Inductive request : Type :=
| GET_restaurants
| GET_restaurant (id : Z)
| DELETE_restaurant (id : Z)
| GET_pizzas
| POST_restaurant_pizzas (get_json : result pyval).

(** [api.add_resource]: the routes. *)
Definition dispatch (req : request) : M response :=
  match req with
  | GET_restaurants => Restaurants_get
  | GET_restaurant id => RestaurantById_get id
  | DELETE_restaurant id => RestaurantById_delete id
  | GET_pizzas => Pizzas_get
  | POST_restaurant_pizzas get_json => RestaurantPizzas_post get_json
  end.

(** One request: a session over the store is opened, the handler runs, and
    the session is removed when the request ends, so only what was
    committed stays. *)
Definition serve (req : request) (d : db) : result response * db :=
  let '(r, s) := dispatch req (new_session d) in (r, store s).

(** A sequence of requests served one after the other. *)
Definition serve_all (reqs : list request) (d : db) : db :=
  fold_left (fun d req => snd (serve req d)) reqs d.

(** The store after a row with these three columns has been inserted. *)
Definition with_row (d : db) (p pid rid : Z) : db :=
  mkDb (restaurants d) (pizzas d)
       (<[next_id (restaurant_pizzas d) := mkRestaurantPizza p pid rid]>
          (restaurant_pizzas d))
       (convert d).

Definition bad_request (d : db) : result response * session :=
  (Return (Response validation_errors 400), new_session d).

(** An engine that converts nothing: it takes ints only. *)
Definition ints_only (v : pyval) : option Z := None.

(** An engine that stores the integer part of a finite float and converts
    nothing else. *)
Definition floats_floored (v : pyval) : option Z :=
  match v with
  | PFloat (Finite q) => Some (Qfloor q)
  | _ => None
  end.

(** The store of the scenarios: one restaurant, one pizza, no association. *)
Definition example_db : db :=
  mkDb {[ 1 := mkRestaurant "Dominion" "1 Main St" ]}
       {[ 1 := mkPizza "Margherita" "tomato,cheese" ]}
       ∅
       ints_only.

(** Two restaurants sharing a pizza: two associations for the first one,
    one for the second. *)
Definition example_db_offers : db :=
  mkDb {[ 1 := mkRestaurant "Dominion" "1 Main St";
          2 := mkRestaurant "Kiki" "2 Side St" ]}
       {[ 1 := mkPizza "Margherita" "tomato,cheese" ]}
       {[ 1 := mkRestaurantPizza 15 1 1;
          2 := mkRestaurantPizza 3 1 1;
          3 := mkRestaurantPizza 20 1 2 ]}
       ints_only.

(** The same store on an engine that floors floats. *)
Definition example_db_floored : db :=
  mkDb (restaurants example_db_offers) (pizzas example_db_offers)
       (restaurant_pizzas example_db_offers) floats_floored.

(** The store's conversion keeps a float between 1 and 30 between 1 and
    30. *)
Definition convert_keeps_range (d : db) : Prop :=
  ∀ q z, (inject_Z 1 <= q)%Q → (q <= inject_Z 30)%Q →
         convert d (PFloat (Finite q)) = Some z → 1 ≤ z ≤ 30.

(** The request body [{price: p, pizza_id: pid, restaurant_id: rid}]. *)
Definition example_body (p pid rid : pyval) : pyval :=
  PDict [("price", p); ("pizza_id", pid); ("restaurant_id", rid)].

(** The range invariant of the association table. *)
Definition price_in_range (d : db) : Prop :=
  map_Forall (fun _ rp => 1 ≤ price rp ≤ 30) (restaurant_pizzas d).

(** Values on which the comparison with an int is not defined. *)
Definition not_a_number (v : pyval) : bool :=
  match v with
  | PNone | PStr _ | PList _ | PDict _ => true
  | PBool _ | PInt _ | PFloat _ => false
  end.

(** Referential integrity of the association table: both foreign keys of
    every row name a row of their table. *)
Definition references_exist (d : db) : Prop :=
  map_Forall (fun _ rp => is_Some (pizzas d !! pizza_id rp)
                          ∧ is_Some (restaurants d !! restaurant_id rp))
             (restaurant_pizzas d).

(** The numbers between 1 and 30, as Python compares them: [True] is 1 and
    [False] is 0, a finite float has its exact value, and neither an
    infinity nor NaN lies between two ints. *)
Definition number_in_range (v : pyval) : Prop :=
  match v with
  | PInt z => 1 ≤ z ≤ 30
  | PBool b => b = true
  | PFloat (Finite q) => (inject_Z 1 <= q)%Q ∧ (q <= inject_Z 30)%Q
  | _ => False
  end.

(** How deep a JSON document nests lists and objects. *)
Fixpoint depth (j : json) : nat :=
  match j with
  | JNull | JInt _ | JStr _ => 0%nat
  | JList l => S (list_max (map depth l))
  | JObj members => S (list_max (map (fun kv => depth (snd kv)) members))
  end.

(** [Restaurant.__repr__] *)
Definition Restaurant_repr (r : Restaurant) : string :=
  "<Restaurant " +:+ restaurant_name r +:+ ">".

(** [Pizza.__repr__] *)
Definition Pizza_repr (p : Pizza) : string :=
  "<Pizza " +:+ pizza_name p +:+ ", " +:+ pizza_ingredients p +:+ ">".

(** [RestaurantPizza.__repr__] of a loaded row, whose price is an int and is
    formatted in decimal. *)
Definition RestaurantPizza_repr (rp : RestaurantPizza) : string :=
  "<RestaurantPizza $" +:+ pretty (price rp) +:+ ">".

(** ** Facts about the store engine *)

Section Engine.
Context {A : Type}.
Implicit Types table : gmap Z A.

Lemma next_id_above table k x : table !! k = Some x → k < next_id table.
Proof.
  unfold next_id. revert k x.
  apply (map_fold_weak_ind
           (fun acc (m : gmap Z A) => ∀ k x, m !! k = Some x → k < Z.succ acc)).
  - intros k x. by rewrite lookup_empty.
  - intros i y m acc _ IH k x.
    destruct (decide (i = k)) as [->|Hne].
    + intros _. lia.
    + rewrite lookup_insert_ne by done. intros Hk.
      specialize (IH k x Hk). lia.
Qed.

Lemma next_id_fresh table : table !! next_id table = None.
Proof.
  destruct (table !! next_id table) as [x|] eqn:E; [|done].
  apply next_id_above in E. lia.
Qed.

Lemma next_id_positive table : 0 < next_id table.
Proof.
  unfold next_id.
  apply (map_fold_weak_ind (fun acc (_ : gmap Z A) => 0 < Z.succ acc)); lia.
Qed.

(** Selecting on the primary key gives at most the one row stored under
    it. *)
Lemma filter_key table id :
  filter (fun kv : Z * A => kv.1 = id) table
  = match table !! id with
    | Some x => {[ id := x ]}
    | None => ∅
    end.
Proof.
  apply map_eq. intros i. apply option_eq. intros y.
  rewrite map_lookup_filter_Some. simpl.
  destruct (table !! id) as [x|] eqn:E.
  - rewrite lookup_singleton_Some. split.
    + intros [Hi ->]. rewrite E in Hi. by inversion Hi.
    + intros [<- <-]. done.
  - rewrite lookup_empty. split; [|done].
    intros [Hi ->]. congruence.
Qed.

Lemma one_or_none_key table id :
  one_or_none (query_all (filter (fun kv : Z * A => kv.1 = id) table))
  = Return (match table !! id with
            | Some x => Some (id, x)
            | None => None
            end).
Proof.
  rewrite filter_key. unfold query_all.
  destruct (table !! id) as [x|].
  - by rewrite map_to_list_singleton.
  - by rewrite map_to_list_empty.
Qed.
End Engine.

Lemma query_restaurant_lookup id s :
  query_restaurant id s
  = (Return (match restaurants (store s) !! id with
             | Some r => Some (id, r)
             | None => None
             end), s).
Proof. unfold query_restaurant. by rewrite one_or_none_key. Qed.

(** The cascade removes exactly the associations of the deleted
    restaurant. *)
Lemma delete_restaurant_associations id d k rp :
  restaurant_pizzas (delete_restaurant id d) !! k = Some rp
  ↔ restaurant_pizzas d !! k = Some rp ∧ restaurant_id rp ≠ id.
Proof. unfold delete_restaurant; simpl. by rewrite map_lookup_filter_Some. Qed.

Lemma delete_restaurant_size id d :
  (size (restaurant_pizzas d)
   = size (restaurant_pizzas (delete_restaurant id d))
     + length (restaurant_pizzas_of d id))%nat.
Proof.
  unfold delete_restaurant, restaurant_pizzas_of, query_all; simpl.
  rewrite length_map_to_list.
  rewrite <- (map_filter_union_complement
                (fun kv : Z * RestaurantPizza => restaurant_id kv.2 = id)
                (restaurant_pizzas d)) at 1.
  rewrite map_size_disj_union by apply map_disjoint_filter_complement.
  lia.
Qed.

(** ** Facts about the validator *)

Lemma validate_price_returns_argument v v' :
  validate_price v = Return v' → v' = v.
Proof.
  unfold validate_price.
  destruct (int_le_py 1 v) as [[|]|]; try discriminate.
  destruct (py_le_int v 30) as [[|]|]; try discriminate.
  by intros [= <-].
Qed.

Lemma validate_price_int p :
  validate_price (PInt p)
  = if (1 <=? p) && (p <=? 30) then Return (PInt p) else Raise ValueError.
Proof.
  unfold validate_price; simpl.
  destruct (1 <=? p); simpl; [|done]. by destruct (p <=? 30).
Qed.

(** What the validator lets through is a number between 1 and 30, floats
    included. *)
Lemma validate_price_in_range v v' :
  validate_price v = Return v' → number_in_range v'.
Proof.
  intros Hv. pose proof (validate_price_returns_argument _ _ Hv) as ->.
  destruct v as [|b|z|f|s|l|kv]; try discriminate.
  - destruct b; [done | discriminate].
  - rewrite validate_price_int in Hv. simpl.
    destruct (1 <=? z) eqn:E1; [|discriminate].
    destruct (z <=? 30) eqn:E2; [|discriminate]. lia.
  - destruct f as [q|neg|]; [|by destruct neg|discriminate].
    unfold validate_price in Hv; simpl in Hv.
    destruct (Qle_bool (inject_Z 1) q) eqn:E1; [|discriminate].
    destruct (Qle_bool q (inject_Z 30)) eqn:E2; [|discriminate].
    split; by apply Qle_bool_iff.
Qed.

(** A float outside the range, an infinity and NaN are refused with
    ValueError. *)
Lemma validate_price_float_out_of_range f :
  ¬ number_in_range (PFloat f) → validate_price (PFloat f) = Raise ValueError.
Proof.
  intros Hout. destruct f as [q|[|]|]; try reflexivity.
  unfold validate_price; simpl.
  destruct (Qle_bool (inject_Z 1) q) eqn:E1; [|done].
  destruct (Qle_bool q (inject_Z 30)) eqn:E2; [|done].
  destruct Hout. split; by apply Qle_bool_iff.
Qed.

Lemma validate_price_float_in_range f :
  number_in_range (PFloat f) → validate_price (PFloat f) = Return (PFloat f).
Proof.
  destruct f as [q|neg|]; [|done..]. intros [H1 H2].
  unfold validate_price; simpl.
  apply Qle_bool_iff in H1, H2. by rewrite H1, H2.
Qed.

Lemma set_price_in_range o v o' :
  set_price o v = Return o' → number_in_range (obj_price o').
Proof.
  unfold set_price. destruct (validate_price v) as [v'|] eqn:E; [|discriminate].
  intros [= <-]. simpl. by apply validate_price_in_range with v.
Qed.

(** The integer a store takes for a number between 1 and 30 lies between 1
    and 30, when its conversion of floats keeps to that. *)
Lemma as_integer_in_range d v p :
  convert_keeps_range d → number_in_range v → as_integer d v = Some p →
  1 ≤ p ≤ 30.
Proof.
  intros Hd Hv Hp. destruct v as [|b|z|f|s|l|kv]; try done.
  - simpl in Hv, Hp. subst b. injection Hp as <-. simpl; lia.
  - simpl in Hv, Hp. by injection Hp as <-.
  - destruct f as [q|neg|]; try done. destruct Hv as [H1 H2].
    by apply (Hd q p).
Qed.

Lemma RestaurantPizza_init_eq p pid rid :
  RestaurantPizza_init p pid rid
  = match validate_price p with
    | Return v => Return (mkObj v pid rid)
    | Raise e => Raise e
    end.
Proof.
  unfold RestaurantPizza_init, set_price. by destruct (validate_price p).
Qed.

(** ** The paths of [RestaurantPizzas.post] *)

(** A body that is a JSON object: the handler either answers 400 with the
    session back to where it started, or 201 with the one new row stored. *)
Lemma post_dict_eq d kv :
  RestaurantPizzas_post (Return (PDict kv)) (new_session d)
  = match validate_price (default PNone (assoc "price" kv)) with
    | Raise _ => bad_request d
    | Return v =>
        match as_integer d v,
              as_integer d (default PNone (assoc "pizza_id" kv)),
              as_integer d (default PNone (assoc "restaurant_id" kv)) with
        | Some p, Some pid, Some rid =>
            match pizzas d !! pid, restaurants d !! rid with
            | Some _, Some _ =>
                (Return (Response
                   (RestaurantPizza_to_dict (with_row d p pid rid)
                      (next_id (restaurant_pizzas d))
                      (mkRestaurantPizza p pid rid)) 201),
                 new_session (with_row d p pid rid))
            | _, _ => bad_request d
            end
        | _, _, _ => bad_request d
        end
    end.
Proof.
  unfold RestaurantPizzas_post, post_try, try_except, bind, lift,
    dict_get, bad_request, new_session.
  rewrite RestaurantPizza_init_eq.
  destruct (validate_price (default PNone (assoc "price" kv))) as [v|e].
  2: { by destruct e. }
  unfold session_add, session_commit; simpl. unfold insert_row; simpl.
  destruct (as_integer d v) as [p|]; [|done].
  destruct (as_integer d (default PNone (assoc "pizza_id" kv))) as [pid|]; [|done].
  destruct (as_integer d (default PNone (assoc "restaurant_id" kv))) as [rid|]; [|done].
  destruct (pizzas d !! pid); [|done].
  destruct (restaurants d !! rid); [|done].
  unfold persistent_row; simpl. by rewrite lookup_insert_eq.
Qed.

(** A body that decoded to something else than an object has no [get]. *)
Lemma post_not_dict d v :
  (∀ kv, v ≠ PDict kv) →
  RestaurantPizzas_post (Return v) (new_session d) = bad_request d.
Proof.
  intros Hv. destruct v; try reflexivity. by destruct (Hv kv).
Qed.

(** An exception of [get_json] is raised before the [try] is entered. *)
Lemma post_get_json_raises e s :
  RestaurantPizzas_post (Raise e) s = (Raise e, s).
Proof. reflexivity. Qed.

(** When the commit fails the new object is still pending, and it is the
    rollback of the second [except] clause that discards it. *)
Lemma post_try_commit_fails d kv v :
  validate_price (default PNone (assoc "price" kv)) = Return v →
  insert_row (mkObj v (default PNone (assoc "pizza_id" kv))
                      (default PNone (assoc "restaurant_id" kv))) d
  = Raise IntegrityError →
  post_try (PDict kv) (new_session d)
  = (Raise IntegrityError,
     mkSession d [mkObj v (default PNone (assoc "pizza_id" kv))
                          (default PNone (assoc "restaurant_id" kv))] []).
Proof.
  intros Hv Hins.
  unfold post_try, bind, lift, dict_get, new_session.
  rewrite RestaurantPizza_init_eq, Hv.
  unfold session_add, session_commit; simpl. by rewrite Hins.
Qed.

(** ** Creating an association *)

(** C1: for every price p with 1 <= p <= 30, a POST to /restaurant_pizzas
    whose body carries price p and a pizza_id and restaurant_id of existing
    rows answers 201 with the created record: id, price, pizza_id,
    restaurant_id, and the nested pizza and restaurant without their own
    association lists; the row is stored under the new id. *)
Theorem post_price_in_range_created d kv p pid rid pz r :
  1 ≤ p ≤ 30 →
  assoc "price" kv = Some (PInt p) →
  assoc "pizza_id" kv = Some (PInt pid) →
  assoc "restaurant_id" kv = Some (PInt rid) →
  pizzas d !! pid = Some pz →
  restaurants d !! rid = Some r →
  serve (POST_restaurant_pizzas (Return (PDict kv))) d
  = (Return (Response
       (JObj [("id", JInt (next_id (restaurant_pizzas d)));
              ("price", JInt p);
              ("pizza_id", JInt pid);
              ("restaurant_id", JInt rid);
              ("pizza", JObj [("id", JInt pid);
                              ("name", JStr (pizza_name pz));
                              ("ingredients", JStr (pizza_ingredients pz))]);
              ("restaurant", JObj [("id", JInt rid);
                                   ("name", JStr (restaurant_name r));
                                   ("address", JStr (restaurant_address r))])])
       201),
     with_row d p pid rid)
  ∧ restaurant_pizzas d !! next_id (restaurant_pizzas d) = None
  ∧ restaurant_pizzas (with_row d p pid rid) !! next_id (restaurant_pizzas d)
    = Some (mkRestaurantPizza p pid rid).
Proof.
  intros Hp Hprice Hpid Hrid Hpz Hr.
  split; [|split].
  - unfold serve, dispatch. rewrite post_dict_eq.
    rewrite Hprice, Hpid, Hrid; simpl.
    rewrite validate_price_int.
    replace (1 <=? p) with true by lia.
    replace (p <=? 30) with true by lia.
    simpl. rewrite Hpz, Hr; simpl.
    unfold RestaurantPizza_to_dict, nested_pizza, nested_restaurant; simpl.
    by rewrite Hpz, Hr.
  - apply next_id_fresh.
  - unfold with_row; simpl. apply lookup_insert_eq.
Qed.

Lemma post_price_in_range_created_witness :
  serve (POST_restaurant_pizzas (Return (example_body (PInt 15) (PInt 1) (PInt 1))))
        example_db
  = (Return (Response
       (JObj [("id", JInt (next_id (restaurant_pizzas example_db)));
              ("price", JInt 15);
              ("pizza_id", JInt 1);
              ("restaurant_id", JInt 1);
              ("pizza", JObj [("id", JInt 1);
                              ("name", JStr "Margherita");
                              ("ingredients", JStr "tomato,cheese")]);
              ("restaurant", JObj [("id", JInt 1);
                                   ("name", JStr "Dominion");
                                   ("address", JStr "1 Main St")])])
       201),
     with_row example_db 15 1 1)
  ∧ restaurant_pizzas example_db !! next_id (restaurant_pizzas example_db) = None
  ∧ restaurant_pizzas (with_row example_db 15 1 1)
      !! next_id (restaurant_pizzas example_db)
    = Some (mkRestaurantPizza 15 1 1).
Proof.
  apply (post_price_in_range_created example_db _ 15 1 1
           (mkPizza "Margherita" "tomato,cheese")
           (mkRestaurant "Dominion" "1 Main St"));
    [lia | reflexivity | reflexivity | reflexivity | reflexivity | reflexivity].
Defined.

(** C2: for every price p with p < 1 or p > 30, a POST to /restaurant_pizzas
    with that price answers 400 with the body
    {"errors": ["validation errors"]} and the store is unchanged. *)
Theorem post_price_out_of_range_rejected d kv p :
  p < 1 ∨ p > 30 →
  assoc "price" kv = Some (PInt p) →
  serve (POST_restaurant_pizzas (Return (PDict kv))) d
  = (Return (Response (JObj [("errors", JList [JStr "validation errors"])]) 400), d).
Proof.
  intros Hp Hprice.
  unfold serve, dispatch. rewrite post_dict_eq, Hprice; simpl.
  rewrite validate_price_int.
  destruct (1 <=? p) eqn:E1; [|done].
  destruct (p <=? 30) eqn:E2; [|done]. lia.
Qed.

Lemma post_price_out_of_range_rejected_witness :
  serve (POST_restaurant_pizzas (Return (example_body (PInt 35) (PInt 1) (PInt 1))))
        example_db
  = (Return (Response (JObj [("errors", JList [JStr "validation errors"])]) 400),
     example_db).
Proof.
  apply (post_price_out_of_range_rejected example_db _ 35); [lia | reflexivity].
Defined.

(** ** Restaurants by id *)

Lemma get_restaurant_eq id d :
  serve (GET_restaurant id) d
  = (Return (match restaurants d !! id with
             | Some r => Response (Restaurant_to_dict d id r) 200
             | None => Response not_found 404
             end), d).
Proof.
  unfold serve, dispatch, RestaurantById_get, bind.
  rewrite query_restaurant_lookup; simpl.
  by destruct (restaurants d !! id).
Qed.

Lemma delete_restaurant_eq id d :
  serve (DELETE_restaurant id) d
  = match restaurants d !! id with
    | Some _ => (Return (Response (JStr "") 204), delete_restaurant id d)
    | None => (Return (Response not_found 404), d)
    end.
Proof.
  unfold serve, dispatch, RestaurantById_delete, bind.
  rewrite query_restaurant_lookup; simpl.
  by destruct (restaurants d !! id).
Qed.

(** The deletion is the effect of the one commit: marking the restaurant
    leaves the store as it is. *)
Lemma session_delete_store id s : store (session_delete id s).2 = store s.
Proof. reflexivity. Qed.

Lemma session_commit_delete id d :
  session_commit (mkSession d [] [id])
  = (Return [], new_session (delete_restaurant id d)).
Proof. reflexivity. Qed.

(** C4: for every id under which no Restaurant exists, GET /restaurants/id
    and DELETE /restaurants/id both answer 404 with the body
    {"error": "Restaurant not found"}, and the store is unchanged. *)
Theorem restaurant_not_found id d :
  restaurants d !! id = None →
  serve (GET_restaurant id) d
  = (Return (Response (JObj [("error", JStr "Restaurant not found")]) 404), d)
  ∧ serve (DELETE_restaurant id) d
    = (Return (Response (JObj [("error", JStr "Restaurant not found")]) 404), d).
Proof.
  intros Hid. rewrite get_restaurant_eq, delete_restaurant_eq, Hid. done.
Qed.

Lemma restaurant_not_found_witness :
  serve (GET_restaurant 999) example_db
  = (Return (Response (JObj [("error", JStr "Restaurant not found")]) 404),
     example_db)
  ∧ serve (DELETE_restaurant 999) example_db
    = (Return (Response (JObj [("error", JStr "Restaurant not found")]) 404),
       example_db).
Proof. apply (restaurant_not_found 999 example_db). reflexivity. Defined.

(** C3: deleting an existing restaurant that has N associations answers 204
    with an empty body; the one commit removes the restaurant and its N
    associations and nothing else, and a GET on that id then answers 404. *)
Theorem delete_restaurant_cascades id d r N :
  restaurants d !! id = Some r →
  length (restaurant_pizzas_of d id) = N →
  ∃ d',
    serve (DELETE_restaurant id) d = (Return (Response (JStr "") 204), d')
    ∧ session_commit (mkSession d [] [id]) = (Return [], new_session d')
    ∧ restaurants d' = delete id (restaurants d)
    ∧ pizzas d' = pizzas d
    ∧ (∀ k rp, restaurant_pizzas d' !! k = Some rp
               ↔ restaurant_pizzas d !! k = Some rp ∧ restaurant_id rp ≠ id)
    ∧ (size (restaurant_pizzas d') + N = size (restaurant_pizzas d))%nat
    ∧ restaurant_pizzas_of d' id = []
    ∧ serve (GET_restaurant id) d'
      = (Return (Response (JObj [("error", JStr "Restaurant not found")]) 404), d').
Proof.
  intros Hid HN. exists (delete_restaurant id d).
  rewrite delete_restaurant_eq, Hid.
  split_and!; try reflexivity.
  - intros k rp. apply delete_restaurant_associations.
  - rewrite (delete_restaurant_size id d), HN. lia.
  - unfold restaurant_pizzas_of, query_all.
    apply map_to_list_empty_iff, map_empty. intros k.
    apply map_lookup_filter_None. right. intros rp Hk.
    apply delete_restaurant_associations in Hk as [_ Hne]. done.
  - rewrite get_restaurant_eq. unfold delete_restaurant; simpl.
    by rewrite lookup_delete_eq.
Qed.

Lemma delete_restaurant_cascades_witness :
  ∃ d',
    serve (DELETE_restaurant 1) example_db_offers
    = (Return (Response (JStr "") 204), d')
    ∧ session_commit (mkSession example_db_offers [] [1])
      = (Return [], new_session d')
    ∧ restaurants d' = delete 1 (restaurants example_db_offers)
    ∧ pizzas d' = pizzas example_db_offers
    ∧ (∀ k rp, restaurant_pizzas d' !! k = Some rp
               ↔ restaurant_pizzas example_db_offers !! k = Some rp
                 ∧ restaurant_id rp ≠ 1)
    ∧ (size (restaurant_pizzas d') + 2
       = size (restaurant_pizzas example_db_offers))%nat
    ∧ restaurant_pizzas_of d' 1 = []
    ∧ serve (GET_restaurant 1) d'
      = (Return (Response (JObj [("error", JStr "Restaurant not found")]) 404), d').
Proof.
  apply (delete_restaurant_cascades 1 example_db_offers
           (mkRestaurant "Dominion" "1 Main St") 2);
    reflexivity.
Defined.

(** ** Bodies that are not what the handler expects *)

(** C8, as the code has it: a body that cannot be decoded makes
    [request.get_json()] raise before the [try] statement is entered, so
    the handler builds no response and the exception leaves it, with the
    store unchanged; a body that decodes to a JSON value other than an
    object is answered 400 with {"errors": ["validation errors"]}, again
    with the store unchanged. *)
Theorem post_undecodable_body d :
  (∀ e, serve (POST_restaurant_pizzas (Raise e)) d = (Raise e, d))
  ∧ (∀ v, (∀ kv, v ≠ PDict kv) →
       serve (POST_restaurant_pizzas (Return v)) d
       = (Return (Response (JObj [("errors", JList [JStr "validation errors"])]) 400),
          d)).
Proof.
  split.
  - intros e. reflexivity.
  - intros v Hv. unfold serve, dispatch. by rewrite post_not_dict.
Qed.

Lemma post_undecodable_body_witness :
  (∀ e, serve (POST_restaurant_pizzas (Raise e)) example_db = (Raise e, example_db))
  ∧ serve (POST_restaurant_pizzas (Return (PList [PInt 15]))) example_db
    = (Return (Response (JObj [("errors", JList [JStr "validation errors"])]) 400),
       example_db).
Proof.
  split.
  - apply (post_undecodable_body example_db).
  - apply (post_undecodable_body example_db). intros kv. discriminate.
Defined.

(** C8 as stated fails: with a malformed body, for which [get_json] raises
    BadRequest, the handler does not answer 400 with the generic payload. *)
Lemma post_malformed_body_not_translated :
  (serve (POST_restaurant_pizzas (Raise BadRequest)) example_db).1
  ≠ Return (Response (JObj [("errors", JList [JStr "validation errors"])]) 400).
Proof. discriminate. Qed.

(** C9: a POST to /restaurant_pizzas whose pizza_id or restaurant_id is
    missing (or null) or is the id of no Pizza or Restaurant row answers 400
    with {"errors": ["validation errors"]}, whatever the price; the session
    ends with nothing pending and the store is unchanged, so no row is
    persisted. *)
Theorem post_bad_reference_rejected d kv :
  default PNone (assoc "pizza_id" kv) = PNone
  ∨ default PNone (assoc "restaurant_id" kv) = PNone
  ∨ (∃ pid, assoc "pizza_id" kv = Some (PInt pid) ∧ pizzas d !! pid = None)
  ∨ (∃ rid, assoc "restaurant_id" kv = Some (PInt rid) ∧ restaurants d !! rid = None) →
  RestaurantPizzas_post (Return (PDict kv)) (new_session d)
  = (Return (Response (JObj [("errors", JList [JStr "validation errors"])]) 400),
     mkSession d [] [])
  ∧ serve (POST_restaurant_pizzas (Return (PDict kv))) d
    = (Return (Response (JObj [("errors", JList [JStr "validation errors"])]) 400), d).
Proof.
  intros Href.
  assert (RestaurantPizzas_post (Return (PDict kv)) (new_session d) = bad_request d)
    as Hpost.
  { rewrite post_dict_eq.
    destruct (validate_price (default PNone (assoc "price" kv))) as [v|]; [|done].
    destruct (as_integer d v) as [p|]; [|done].
    destruct Href as [Hp|[Hr|[(pid & Hp & Hnone)|(rid & Hr & Hnone)]]].
    - by rewrite Hp.
    - rewrite Hr; simpl.
      by destruct (as_integer d (default PNone (assoc "pizza_id" kv))).
    - rewrite Hp; simpl. rewrite Hnone.
      by destruct (as_integer d (default PNone (assoc "restaurant_id" kv))).
    - rewrite Hr; simpl.
      destruct (as_integer d (default PNone (assoc "pizza_id" kv))) as [pid|]; [|done].
      rewrite Hnone. by destruct (pizzas d !! pid). }
  split; [exact Hpost|].
  unfold serve, dispatch. by rewrite Hpost.
Qed.

Lemma post_bad_reference_rejected_witness :
  RestaurantPizzas_post (Return (example_body (PInt 15) (PInt 7) (PInt 1)))
                        (new_session example_db)
  = (Return (Response (JObj [("errors", JList [JStr "validation errors"])]) 400),
     mkSession example_db [] [])
  ∧ serve (POST_restaurant_pizzas (Return (example_body (PInt 15) (PInt 7) (PInt 1))))
          example_db
    = (Return (Response (JObj [("errors", JList [JStr "validation errors"])]) 400),
       example_db).
Proof.
  apply (post_bad_reference_rejected example_db).
  right. right. left. exists 7. split; reflexivity.
Defined.

(** C10, as the code has it: when the body omits price (None) or carries a
    price that is not a number (a string, a list, an object), the range
    comparison raises TypeError, which only the broad [except] clause
    catches, and the answer is 400 with {"errors": ["validation errors"]}
    after a rollback, the store unchanged. A float price is compared
    numerically and never raises TypeError: between 1 and 30 the validator
    accepts it and returns it, outside (infinities and NaN included) it
    raises ValueError, answered with the same 400 and the store
    unchanged. *)
Theorem post_price_not_an_integer :
  (∀ d kv,
     not_a_number (default PNone (assoc "price" kv)) = true →
     validate_price (default PNone (assoc "price" kv)) = Raise TypeError
     ∧ is_ValueError TypeError = false
     ∧ RestaurantPizzas_post (Return (PDict kv)) (new_session d)
       = (Return (Response (JObj [("errors", JList [JStr "validation errors"])]) 400),
          mkSession d [] [])
     ∧ serve (POST_restaurant_pizzas (Return (PDict kv))) d
       = (Return (Response (JObj [("errors", JList [JStr "validation errors"])]) 400),
          d))
  ∧ (∀ f, number_in_range (PFloat f) →
          validate_price (PFloat f) = Return (PFloat f))
  ∧ (∀ d kv f,
       default PNone (assoc "price" kv) = PFloat f →
       ¬ number_in_range (PFloat f) →
       validate_price (PFloat f) = Raise ValueError
       ∧ is_ValueError ValueError = true
       ∧ serve (POST_restaurant_pizzas (Return (PDict kv))) d
         = (Return (Response (JObj [("errors", JList [JStr "validation errors"])]) 400),
            d)).
Proof.
  split_and!.
  - intros d kv Hnan.
    assert (validate_price (default PNone (assoc "price" kv)) = Raise TypeError)
      as Hraise
      by (destruct (default PNone (assoc "price" kv)); try discriminate; reflexivity).
    assert (RestaurantPizzas_post (Return (PDict kv)) (new_session d) = bad_request d)
      as Hpost by (by rewrite post_dict_eq, Hraise).
    split_and!; [done | done | exact Hpost |].
    unfold serve, dispatch. by rewrite Hpost.
  - apply validate_price_float_in_range.
  - intros d kv f Hv Hout.
    pose proof (validate_price_float_out_of_range f Hout) as Hraise.
    split_and!; [done | done |].
    unfold serve, dispatch. by rewrite post_dict_eq, Hv, Hraise.
Qed.

Lemma post_price_not_an_integer_witness :
  (validate_price (PStr "cheap") = Raise TypeError
   ∧ serve (POST_restaurant_pizzas
              (Return (example_body (PStr "cheap") (PInt 1) (PInt 1))))
           example_db
     = (Return (Response (JObj [("errors", JList [JStr "validation errors"])]) 400),
        example_db))
  ∧ validate_price (PFloat (Finite (31 # 2))) = Return (PFloat (Finite (31 # 2)))
  ∧ (validate_price (PFloat (Finite (71 # 2))) = Raise ValueError
     ∧ serve (POST_restaurant_pizzas
                (Return (example_body (PFloat (Finite (71 # 2))) (PInt 1) (PInt 1))))
             example_db
       = (Return (Response (JObj [("errors", JList [JStr "validation errors"])]) 400),
          example_db)).
Proof.
  destruct post_price_not_an_integer as (Hnan & Hin & Hout).
  split_and!.
  - apply (Hnan example_db
             [("price", PStr "cheap"); ("pizza_id", PInt 1); ("restaurant_id", PInt 1)]).
    reflexivity.
  - apply (Hnan example_db
             [("price", PStr "cheap"); ("pizza_id", PInt 1); ("restaurant_id", PInt 1)]).
    reflexivity.
  - apply (Hin (Finite (31 # 2))). split; discriminate.
  - apply (Hout example_db
             [("price", PFloat (Finite (71 # 2))); ("pizza_id", PInt 1);
              ("restaurant_id", PInt 1)] (Finite (71 # 2))); [reflexivity|].
    intros [_ H]. apply H. reflexivity.
  - apply (Hout example_db
             [("price", PFloat (Finite (71 # 2))); ("pizza_id", PInt 1);
              ("restaurant_id", PInt 1)] (Finite (71 # 2))); [reflexivity|].
    intros [_ H]. apply H. reflexivity.
Defined.

(** C10 as stated fails: the price 15.5 is not an integer, and the range
    comparison raises nothing on it, a non-ValueError exception least of
    all. *)
Lemma float_price_passes_validator :
  ¬ ∃ e, validate_price (PFloat (Finite (31 # 2))) = Raise e
         ∧ is_ValueError e = false.
Proof. intros (e & He & _). vm_compute in He. discriminate. Qed.

(** ** The price invariant *)

Lemma price_in_range_with_row d p pid rid :
  price_in_range d → 1 ≤ p ≤ 30 → price_in_range (with_row d p pid rid).
Proof.
  unfold price_in_range, with_row; simpl. intros Hd Hp.
  by apply map_Forall_insert_2.
Qed.

Lemma price_in_range_delete_restaurant id d :
  price_in_range d → price_in_range (delete_restaurant id d).
Proof.
  unfold price_in_range. intros Hd k rp Hk.
  apply delete_restaurant_associations in Hk as [Hk _]. by apply (Hd k).
Qed.

(** What a POST can do to the store: nothing, or add one row whose price
    is what the store takes for a value the validator let through. *)
Lemma post_store get_json d :
  (serve (POST_restaurant_pizzas get_json) d).2 = d
  ∨ ∃ v p pid rid,
      number_in_range v ∧ as_integer d v = Some p
      ∧ (serve (POST_restaurant_pizzas get_json) d).2 = with_row d p pid rid.
Proof.
  destruct get_json as [data|e]; [|by left].
  destruct data as [| | | | | |kv]; try by left.
  unfold serve, dispatch. rewrite post_dict_eq.
  destruct (validate_price (default PNone (assoc "price" kv))) as [v'|] eqn:Hv;
    [|by left].
  destruct (as_integer d v') as [p|] eqn:Hp; [|by left].
  destruct (as_integer d (default PNone (assoc "pizza_id" kv))) as [pid|]; [|by left].
  destruct (as_integer d (default PNone (assoc "restaurant_id" kv))) as [rid|];
    [|by left].
  destruct (pizzas d !! pid); [|by left].
  destruct (restaurants d !! rid); [|by left].
  right. exists v', p, pid, rid. split; [|done].
  by apply validate_price_in_range with (default PNone (assoc "price" kv)).
Qed.

(** No request changes how the store converts values. *)
Lemma serve_convert req d : convert (serve req d).2 = convert d.
Proof.
  destruct req as [|id|id| |get_json]; try reflexivity.
  - by rewrite get_restaurant_eq.
  - rewrite delete_restaurant_eq. by destruct (restaurants d !! id).
  - by destruct (post_store get_json d) as [->|(v & p & pid & rid & _ & _ & ->)].
Qed.

Lemma serve_price_in_range req d :
  convert_keeps_range d → price_in_range d → price_in_range (serve req d).2.
Proof.
  intros Hc Hd. destruct req as [|id|id| |get_json]; try exact Hd.
  - by rewrite get_restaurant_eq.
  - rewrite delete_restaurant_eq. destruct (restaurants d !! id); [|done].
    by apply price_in_range_delete_restaurant.
  - destruct (post_store get_json d) as [->|(v & p & pid & rid & Hv & Hp & ->)];
      [done|].
    apply price_in_range_with_row; [done|].
    by apply as_integer_in_range with d v.
Qed.

(** C5: every RestaurantPizza row that reaches the store has a price between
    1 and 30. Each assignment to the price of an object runs the validator,
    so an object only ever carries a number between 1 and 30 as price, an
    int, True or a float; the store takes an int as it is, and when its
    conversion of a float between 1 and 30 stays between 1 and 30, a store
    whose rows are all in the range stays so after every request and every
    sequence of requests. *)
Theorem price_invariant_preserved :
  (∀ o v o', set_price o v = Return o' → number_in_range (obj_price o'))
  ∧ (∀ req d, convert_keeps_range d → price_in_range d →
              price_in_range (serve req d).2)
  ∧ (∀ reqs d, convert_keeps_range d → price_in_range d →
               price_in_range (serve_all reqs d)).
Proof.
  split_and!.
  - apply set_price_in_range.
  - apply serve_price_in_range.
  - intros reqs. unfold serve_all.
    induction reqs as [|req reqs IH]; intros d Hc Hd; [done|].
    simpl. apply IH.
    + unfold convert_keeps_range. rewrite serve_convert. exact Hc.
    + by apply serve_price_in_range.
Qed.

Lemma floats_floored_keeps_range : convert_keeps_range example_db_floored.
Proof.
  intros q z H1 H2 [= <-]. split.
  - rewrite <- (Qfloor_Z 1). by apply Qfloor_resp_le.
  - rewrite <- (Qfloor_Z 30). by apply Qfloor_resp_le.
Qed.

Lemma price_invariant_preserved_witness :
  price_in_range
    (serve_all [POST_restaurant_pizzas
                  (Return (example_body (PFloat (Finite (31 # 2))) (PInt 1) (PInt 2)));
                POST_restaurant_pizzas
                  (Return (example_body (PFloat (Finite (61 # 2))) (PInt 1) (PInt 2)));
                POST_restaurant_pizzas (Return (example_body (PInt 30) (PInt 1) (PInt 2)));
                POST_restaurant_pizzas (Return (example_body (PInt 31) (PInt 1) (PInt 2)));
                DELETE_restaurant 1]
               example_db_floored).
Proof.
  apply price_invariant_preserved.
  - exact floats_floored_keeps_range.
  - unfold price_in_range. apply (bool_decide_unpack _). vm_compute. exact I.
Defined.

(** ** Listings and the full view of a restaurant *)

Section Listing.
Context {A : Type} (to_dict : Z → A → json) (table : gmap Z A).

Lemma listing_length :
  length (map (fun kv => to_dict kv.1 kv.2) (query_all table)) = size table.
Proof. unfold query_all. by rewrite length_map, length_map_to_list. Qed.

Lemma listing_elem_of j :
  j ∈ map (fun kv => to_dict kv.1 kv.2) (query_all table)
  ↔ ∃ id x, table !! id = Some x ∧ j = to_dict id x.
Proof.
  unfold query_all. rewrite list_elem_of_In, in_map_iff. split.
  - intros ([id x] & <- & Hin). exists id, x. split; [|done].
    by apply elem_of_map_to_list, list_elem_of_In.
  - intros (id & x & Hx & ->). exists (id, x). split; [done|].
    by apply list_elem_of_In, elem_of_map_to_list.
Qed.
End Listing.

(** C6: GET /restaurants always answers 200 with one object per Restaurant
    row, made of id, name and address only, and GET /pizzas always answers
    200 with one object per Pizza row, made of id, name and ingredients
    only; no object has a restaurant_pizzas member, and the list is empty
    when the table is. Neither request changes the store. *)
Theorem listings_are_flat d :
  (∃ items,
     serve GET_restaurants d = (Return (Response (JList items) 200), d)
     ∧ length items = size (restaurants d)
     ∧ (∀ j, j ∈ items
             ↔ ∃ id r, restaurants d !! id = Some r
                       ∧ j = JObj [("id", JInt id);
                                   ("name", JStr (restaurant_name r));
                                   ("address", JStr (restaurant_address r))])
     ∧ Forall (fun j => keys j = ["id"; "name"; "address"]
                        ∧ member "restaurant_pizzas" j = None) items)
  ∧ (∃ items,
       serve GET_pizzas d = (Return (Response (JList items) 200), d)
       ∧ length items = size (pizzas d)
       ∧ (∀ j, j ∈ items
               ↔ ∃ id p, pizzas d !! id = Some p
                         ∧ j = JObj [("id", JInt id);
                                     ("name", JStr (pizza_name p));
                                     ("ingredients", JStr (pizza_ingredients p))])
       ∧ Forall (fun j => keys j = ["id"; "name"; "ingredients"]
                          ∧ member "restaurant_pizzas" j = None) items).
Proof.
  split.
  - eexists. split_and!; [reflexivity | apply listing_length | | ].
    + intros j. apply (listing_elem_of Restaurant_to_dict_flat).
    + apply Forall_forall. intros j Hj.
      apply (listing_elem_of Restaurant_to_dict_flat) in Hj as (id & r & _ & ->).
      done.
  - eexists. split_and!; [reflexivity | apply listing_length | | ].
    + intros j. apply (listing_elem_of Pizza_to_dict_flat).
    + apply Forall_forall. intros j Hj.
      apply (listing_elem_of Pizza_to_dict_flat) in Hj as (id & p & _ & ->).
      done.
Qed.

Lemma restaurant_pizzas_of_elem_of d id k rp :
  (k, rp) ∈ restaurant_pizzas_of d id
  ↔ restaurant_pizzas d !! k = Some rp ∧ restaurant_id rp = id.
Proof.
  unfold restaurant_pizzas_of, query_all.
  by rewrite elem_of_map_to_list, map_lookup_filter_Some.
Qed.

(** C7: for every existing Restaurant id, GET /restaurants/id answers 200
    with id, name, address and the list of the restaurant's associations,
    each association once, with its id, price, pizza_id, restaurant_id and
    the associated pizza's id, name and ingredients, and without a
    restaurant member, so that the restaurant does not occur again below
    itself. The store is unchanged. *)
Theorem get_restaurant_full id d r :
  restaurants d !! id = Some r →
  serve (GET_restaurant id) d
  = (Return (Response
       (JObj [("id", JInt id);
              ("name", JStr (restaurant_name r));
              ("address", JStr (restaurant_address r));
              ("restaurant_pizzas",
               JList (map (fun kv : Z * RestaurantPizza =>
                         JObj [("id", JInt kv.1);
                               ("price", JInt (price kv.2));
                               ("pizza_id", JInt (pizza_id kv.2));
                               ("restaurant_id", JInt (restaurant_id kv.2));
                               ("pizza",
                                match pizzas d !! pizza_id kv.2 with
                                | Some pz =>
                                    JObj [("id", JInt (pizza_id kv.2));
                                          ("name", JStr (pizza_name pz));
                                          ("ingredients", JStr (pizza_ingredients pz))]
                                | None => JNull
                                end)])
                         (restaurant_pizzas_of d id)))])
       200), d)
  ∧ NoDup (restaurant_pizzas_of d id)
  ∧ (∀ k rp, (k, rp) ∈ restaurant_pizzas_of d id
             ↔ restaurant_pizzas d !! k = Some rp ∧ restaurant_id rp = id)
  ∧ Forall (fun item => member "restaurant" item = None
                        ∧ member "restaurant_pizzas" item = None
                        ∧ ∃ pz, member "pizza" item = Some pz
                                ∧ member "restaurant_pizzas" pz = None)
      (map (fun kv => RestaurantPizza_to_dict_nested d kv.1 kv.2)
           (restaurant_pizzas_of d id)).
Proof.
  intros Hid. split_and!.
  - rewrite get_restaurant_eq, Hid. reflexivity.
  - apply NoDup_map_to_list.
  - intros k rp. apply restaurant_pizzas_of_elem_of.
  - apply Forall_forall. intros item Hin.
    apply list_elem_of_In, in_map_iff in Hin as ([k rp] & <- & _).
    split_and!; [done | done |].
    exists (nested_pizza d (pizza_id rp)). split; [done|].
    unfold nested_pizza. by destruct (pizzas d !! pizza_id rp).
Qed.

Lemma get_restaurant_full_witness :
  (serve (GET_restaurant 2) example_db_offers).1
  = Return (Response
      (JObj [("id", JInt 2); ("name", JStr "Kiki"); ("address", JStr "2 Side St");
             ("restaurant_pizzas",
              JList [JObj [("id", JInt 3); ("price", JInt 20);
                           ("pizza_id", JInt 1); ("restaurant_id", JInt 2);
                           ("pizza", JObj [("id", JInt 1);
                                           ("name", JStr "Margherita");
                                           ("ingredients", JStr "tomato,cheese")])]])])
      200).
Proof.
  pose proof (get_restaurant_full 2 example_db_offers
                (mkRestaurant "Kiki" "2 Side St") eq_refl) as [H _].
  rewrite H. reflexivity.
Defined.

(** ** More on the validator *)

(** X1: the validator has three outcomes. It returns its argument unchanged
    exactly on the numbers between 1 and 30 (True counting as 1), raises
    ValueError on every other number, infinities and NaN included, and
    raises TypeError on None, strings, lists and objects. *)
Theorem validate_price_outcome v :
  (validate_price v = Return v ∧ number_in_range v)
  ∨ (validate_price v = Raise ValueError
     ∧ not_a_number v = false ∧ ¬ number_in_range v)
  ∨ (validate_price v = Raise TypeError
     ∧ not_a_number v = true ∧ ¬ number_in_range v).
Proof.
  destruct v as [|b|z|f|s|l|kv]; try (right; right; split_and!; [done|done|tauto]).
  - destruct b.
    + left. by split.
    + right; left. split_and!; [done | done | discriminate].
  - rewrite validate_price_int.
    destruct (1 <=? z) eqn:E1; destruct (z <=? 30) eqn:E2; simpl;
      first [ left; split; [done | lia]
            | right; left; split_and!; [done | done | lia] ].
  - destruct f as [q|neg|].
    + unfold validate_price; simpl.
      destruct (Qle_bool (inject_Z 1) q) eqn:E1.
      * destruct (Qle_bool q (inject_Z 30)) eqn:E2.
        -- left. split; [done|]. split; by apply Qle_bool_iff.
        -- right; left. split_and!; [done | done |].
           intros [_ H]. apply Qle_bool_iff in H. congruence.
      * right; left. split_and!; [done | done |].
        intros [H _]. apply Qle_bool_iff in H. congruence.
    + right; left. split_and!; [by destruct neg | done | tauto].
    + right; left. split_and!; [done | done | tauto].
Qed.

(** ** More on [RestaurantPizzas.post] *)

(** What a decoded body leads to: the generic 400, or a 201 for an object
    whose price the validator let through, whose three values the store
    takes as integers and whose two references exist. *)
Lemma post_returns v d :
  serve (POST_restaurant_pizzas (Return v)) d
  = (Return (Response validation_errors 400), d)
  ∨ ∃ p pid rid,
      (∃ kv, v = PDict kv
             ∧ number_in_range (default PNone (assoc "price" kv))
             ∧ as_integer d (default PNone (assoc "price" kv)) = Some p
             ∧ as_integer d (default PNone (assoc "pizza_id" kv)) = Some pid
             ∧ as_integer d (default PNone (assoc "restaurant_id" kv)) = Some rid)
      ∧ is_Some (pizzas d !! pid) ∧ is_Some (restaurants d !! rid)
      ∧ serve (POST_restaurant_pizzas (Return v)) d
        = (Return (Response
             (RestaurantPizza_to_dict (with_row d p pid rid)
                (next_id (restaurant_pizzas d))
                (mkRestaurantPizza p pid rid)) 201),
           with_row d p pid rid).
Proof.
  destruct v as [| | | | | |kv]; try by left.
  unfold serve, dispatch. rewrite post_dict_eq.
  destruct (validate_price (default PNone (assoc "price" kv))) as [v'|] eqn:Hv;
    [|by left].
  pose proof (validate_price_returns_argument _ _ Hv) as ->.
  destruct (as_integer d (default PNone (assoc "price" kv))) as [p|] eqn:Hp;
    [|by left].
  destruct (as_integer d (default PNone (assoc "pizza_id" kv))) as [pid|] eqn:Hpid;
    [|by left].
  destruct (as_integer d (default PNone (assoc "restaurant_id" kv))) as [rid|] eqn:Hrid;
    [|by left].
  destruct (pizzas d !! pid) eqn:Hpz; [|by left].
  destruct (restaurants d !! rid) eqn:Hr; [|by left].
  right. exists p, pid, rid.
  split.
  { exists kv. split; [done|]. split; [|done].
    by apply validate_price_in_range with (default PNone (assoc "price" kv)). }
  split; [by rewrite Hpz|]. split; [by rewrite Hr|]. done.
Qed.

(** X3: once the body is decoded, POST /restaurant_pizzas answers either
    400 with the generic payload, the store unchanged, or 201; and it
    answers 201 only for an object whose price the validator let through, a
    number between 1 and 30, whose three values the store takes as integers
    and whose two references exist, the store then holding exactly one row
    more, made of those three integers. *)
Theorem post_answers_400_or_201 v d :
  serve (POST_restaurant_pizzas (Return v)) d
  = (Return (Response (JObj [("errors", JList [JStr "validation errors"])]) 400), d)
  ∨ ∃ kv p pid rid pz r,
      v = PDict kv
      ∧ number_in_range (default PNone (assoc "price" kv))
      ∧ as_integer d (default PNone (assoc "price" kv)) = Some p
      ∧ as_integer d (default PNone (assoc "pizza_id" kv)) = Some pid
      ∧ as_integer d (default PNone (assoc "restaurant_id" kv)) = Some rid
      ∧ pizzas d !! pid = Some pz ∧ restaurants d !! rid = Some r
      ∧ (serve (POST_restaurant_pizzas (Return v)) d).1
        = Return (Response
            (JObj [("id", JInt (next_id (restaurant_pizzas d)));
                   ("price", JInt p);
                   ("pizza_id", JInt pid);
                   ("restaurant_id", JInt rid);
                   ("pizza", Pizza_to_dict_flat pid pz);
                   ("restaurant", Restaurant_to_dict_flat rid r)]) 201)
      ∧ restaurant_pizzas (serve (POST_restaurant_pizzas (Return v)) d).2
        = <[next_id (restaurant_pizzas d) := mkRestaurantPizza p pid rid]>
            (restaurant_pizzas d)
      ∧ size (restaurant_pizzas (serve (POST_restaurant_pizzas (Return v)) d).2)
        = S (size (restaurant_pizzas d)).
Proof.
  destruct (post_returns v d)
    as [H|(p & pid & rid & (kv & -> & Hrange & Hp & Hpid & Hrid)
           & [pz Hpz] & [r Hr] & H)];
    [by left|].
  right. exists kv, p, pid, rid, pz, r. rewrite H; simpl.
  split; [done|]. split; [exact Hrange|]. split; [exact Hp|].
  split; [exact Hpid|]. split; [exact Hrid|].
  split; [exact Hpz|]. split; [exact Hr|].
  split; [|split; [done|]].
  - unfold RestaurantPizza_to_dict, nested_pizza, nested_restaurant, with_row; simpl.
    by rewrite Hpz, Hr.
  - apply map_size_insert_None, next_id_fresh.
Qed.

(** X5: the handler reads the three fields [price], [pizza_id] and
    [restaurant_id] and nothing else: two bodies that agree on them, a
    missing field counting as null, get the same answer and leave the same
    store, whatever other members or member order they have. *)
Theorem post_reads_three_fields kv kv' d :
  default PNone (assoc "price" kv) = default PNone (assoc "price" kv') →
  default PNone (assoc "pizza_id" kv) = default PNone (assoc "pizza_id" kv') →
  default PNone (assoc "restaurant_id" kv)
  = default PNone (assoc "restaurant_id" kv') →
  serve (POST_restaurant_pizzas (Return (PDict kv))) d
  = serve (POST_restaurant_pizzas (Return (PDict kv'))) d.
Proof.
  intros Hp Hpid Hrid. unfold serve, dispatch.
  by rewrite !post_dict_eq, Hp, Hpid, Hrid.
Qed.

Lemma post_reads_three_fields_witness :
  serve (POST_restaurant_pizzas
           (Return (PDict [("note", PStr "extra cheese"); ("restaurant_id", PInt 1);
                           ("price", PInt 15); ("pizza_id", PInt 1)])))
        example_db
  = serve (POST_restaurant_pizzas (Return (example_body (PInt 15) (PInt 1) (PInt 1))))
          example_db.
Proof.
  apply (post_reads_three_fields _ _ example_db); reflexivity.
Defined.

(** ** Referential integrity *)

Lemma references_exist_with_row d p pid rid :
  references_exist d →
  is_Some (pizzas d !! pid) → is_Some (restaurants d !! rid) →
  references_exist (with_row d p pid rid).
Proof.
  unfold references_exist, with_row; simpl. intros Hd Hpz Hr.
  by apply map_Forall_insert_2.
Qed.

Lemma references_exist_delete_restaurant id d :
  references_exist d → references_exist (delete_restaurant id d).
Proof.
  unfold references_exist. intros Hd k rp Hk.
  apply delete_restaurant_associations in Hk as [Hk Hne].
  destruct (Hd k rp Hk) as [Hpz Hr]. unfold delete_restaurant; simpl.
  split; [done|]. by rewrite lookup_delete_ne.
Qed.

Lemma serve_references_exist req d :
  references_exist d → references_exist (serve req d).2.
Proof.
  intros Hd. destruct req as [|id|id| |[v|e]]; try exact Hd.
  - by rewrite get_restaurant_eq.
  - rewrite delete_restaurant_eq. destruct (restaurants d !! id); [|done].
    by apply references_exist_delete_restaurant.
  - destruct (post_returns v d) as [->|(p & pid & rid & _ & Hpz & Hr & ->)];
      [done|].
    by apply references_exist_with_row.
Qed.

(** X6: when every association names an existing pizza and an existing
    restaurant, this is still so after any request and after any sequence
    of requests: a POST is refused unless its references exist, and the
    cascade of DELETE takes the associations of the restaurant with it. *)
Theorem references_exist_preserved reqs d :
  references_exist d → references_exist (serve_all reqs d).
Proof.
  unfold serve_all. revert d.
  induction reqs as [|req reqs IH]; intros d Hd; [done|].
  simpl. apply IH. by apply serve_references_exist.
Qed.

Lemma references_exist_preserved_witness :
  references_exist
    (serve_all [POST_restaurant_pizzas (Return (example_body (PInt 7) (PInt 1) (PInt 2)));
                DELETE_restaurant 2;
                POST_restaurant_pizzas (Return (example_body (PInt 7) (PInt 1) (PInt 2)))]
               example_db_offers).
Proof.
  apply references_exist_preserved.
  unfold references_exist. apply (bool_decide_unpack _). vm_compute. exact I.
Defined.

(** X7: on a store with referential integrity the full view of a restaurant
    carries, for every association, the pizza as an object with id, name
    and ingredients, never as null. *)
Theorem get_restaurant_pizzas_present id d r :
  references_exist d →
  restaurants d !! id = Some r →
  ∃ items,
    (serve (GET_restaurant id) d).1
    = Return (Response
        (JObj [("id", JInt id);
               ("name", JStr (restaurant_name r));
               ("address", JStr (restaurant_address r));
               ("restaurant_pizzas", JList items)]) 200)
    ∧ length items = length (restaurant_pizzas_of d id)
    ∧ Forall (fun item =>
                ∃ pid pz,
                  pizzas d !! pid = Some pz
                  ∧ member "pizza_id" item = Some (JInt pid)
                  ∧ member "pizza" item
                    = Some (JObj [("id", JInt pid);
                                  ("name", JStr (pizza_name pz));
                                  ("ingredients", JStr (pizza_ingredients pz))]))
             items.
Proof.
  intros Hd Hid. eexists. split_and!.
  - rewrite get_restaurant_eq, Hid. reflexivity.
  - by rewrite length_map.
  - apply Forall_forall. intros item Hin.
    apply list_elem_of_In, in_map_iff in Hin as ([k rp] & <- & Hin).
    apply list_elem_of_In, restaurant_pizzas_of_elem_of in Hin as [Hk _].
    destruct (Hd k rp Hk) as [[pz Hpz] _].
    exists (pizza_id rp), pz. split_and!; [done | done |].
    simpl. unfold nested_pizza. by rewrite Hpz.
Qed.

Lemma get_restaurant_pizzas_present_witness :
  ∃ items,
    (serve (GET_restaurant 1) example_db_offers).1
    = Return (Response
        (JObj [("id", JInt 1);
               ("name", JStr "Dominion");
               ("address", JStr "1 Main St");
               ("restaurant_pizzas", JList items)]) 200)
    ∧ length items = length (restaurant_pizzas_of example_db_offers 1)
    ∧ Forall (fun item =>
                ∃ pid pz,
                  pizzas example_db_offers !! pid = Some pz
                  ∧ member "pizza_id" item = Some (JInt pid)
                  ∧ member "pizza" item
                    = Some (JObj [("id", JInt pid);
                                  ("name", JStr (pizza_name pz));
                                  ("ingredients", JStr (pizza_ingredients pz))]))
             items.
Proof.
  apply (get_restaurant_pizzas_present 1 example_db_offers
           (mkRestaurant "Dominion" "1 Main St")); [|reflexivity].
  unfold references_exist. apply (bool_decide_unpack _). vm_compute. exact I.
Defined.

(** ** What the requests leave alone *)

(** X8: the footprint of each request. A GET changes nothing. A DELETE
    adds nothing: it can only remove restaurants and associations, and it
    leaves the pizzas alone. A POST leaves restaurants and pizzas alone and
    keeps every association it found, adding at most one. *)
Theorem serve_footprint req d :
  match req with
  | GET_restaurants | GET_restaurant _ | GET_pizzas => (serve req d).2 = d
  | DELETE_restaurant _ =>
      restaurants (serve req d).2 ⊆ restaurants d
      ∧ pizzas (serve req d).2 = pizzas d
      ∧ restaurant_pizzas (serve req d).2 ⊆ restaurant_pizzas d
  | POST_restaurant_pizzas _ =>
      restaurants (serve req d).2 = restaurants d
      ∧ pizzas (serve req d).2 = pizzas d
      ∧ restaurant_pizzas d ⊆ restaurant_pizzas (serve req d).2
      ∧ (size (restaurant_pizzas (serve req d).2) ≤ S (size (restaurant_pizzas d)))%nat
  end.
Proof.
  destruct req as [|id|id| |[v|e]]; try done.
  - by rewrite get_restaurant_eq.
  - rewrite delete_restaurant_eq. destruct (restaurants d !! id); [|done].
    unfold delete_restaurant; simpl. split_and!; [|done|].
    + apply delete_subseteq.
    + apply map_filter_subseteq.
  - destruct (post_returns v d) as [->|(p & pid & rid & _ & _ & _ & ->)]; simpl.
    + split_and!; [done | done | done | lia].
    + split_and!; [done | done | |].
      * apply insert_subseteq, next_id_fresh.
      * by rewrite map_size_insert_None by apply next_id_fresh.
  - simpl. split_and!; [done | done | done | lia].
Qed.

(** ** Deleting twice, and in either order *)

(** X9: DELETE is idempotent: on the store a DELETE leaves, the same DELETE
    answers 404 and changes nothing, whether or not the first one found the
    restaurant. *)
Theorem delete_twice id d :
  serve (DELETE_restaurant id) (serve (DELETE_restaurant id) d).2
  = (Return (Response (JObj [("error", JStr "Restaurant not found")]) 404),
     (serve (DELETE_restaurant id) d).2).
Proof.
  rewrite (delete_restaurant_eq id d).
  destruct (restaurants d !! id) eqn:Hid; simpl.
  - rewrite delete_restaurant_eq. unfold delete_restaurant at 1; simpl.
    by rewrite lookup_delete_eq.
  - by rewrite delete_restaurant_eq, Hid.
Qed.

Lemma delete_restaurant_comm a b d :
  delete_restaurant a (delete_restaurant b d)
  = delete_restaurant b (delete_restaurant a d).
Proof.
  unfold delete_restaurant; simpl. f_equal.
  - apply delete_delete.
  - apply map_filter_comm.
Qed.

(** X10: two DELETEs can be served in either order: the store that results
    is the same. *)
Theorem delete_order_irrelevant a b d :
  serve_all [DELETE_restaurant a; DELETE_restaurant b] d
  = serve_all [DELETE_restaurant b; DELETE_restaurant a] d.
Proof.
  unfold serve_all; simpl.
  destruct (decide (a = b)) as [->|Hne]; [done|].
  rewrite (delete_restaurant_eq a d), (delete_restaurant_eq b d).
  destruct (restaurants d !! a) as [ra|] eqn:Ha;
    destruct (restaurants d !! b) as [rb|] eqn:Hb; simpl;
    rewrite !delete_restaurant_eq; simpl;
    rewrite ?lookup_delete_ne by done; rewrite ?Ha, ?Hb; simpl; try done.
  apply delete_restaurant_comm.
Qed.

(** X11: a deleted restaurant can no longer be referenced: after a DELETE
    of an id, every POST that names that id as restaurant_id is answered 400
    and leaves the store as the DELETE left it. *)
Theorem post_after_delete_rejected id kv d :
  assoc "restaurant_id" kv = Some (PInt id) →
  serve (POST_restaurant_pizzas (Return (PDict kv)))
        (serve (DELETE_restaurant id) d).2
  = (Return (Response (JObj [("errors", JList [JStr "validation errors"])]) 400),
     (serve (DELETE_restaurant id) d).2).
Proof.
  intros Hrid.
  assert (restaurants (serve (DELETE_restaurant id) d).2 !! id = None) as Hgone.
  { rewrite delete_restaurant_eq. destruct (restaurants d !! id) eqn:Hid; simpl.
    - apply lookup_delete_eq.
    - done. }
  destruct (post_returns (PDict kv) (serve (DELETE_restaurant id) d).2)
    as [H|(p & pid & rid & (kv' & Hkv & _ & _ & _ & Hread) & _ & [r Hr] & _)];
    [exact H|].
  exfalso. injection Hkv as <-. rewrite Hrid in Hread; simpl in Hread.
  injection Hread as <-. congruence.
Qed.

Lemma post_after_delete_rejected_witness :
  serve (POST_restaurant_pizzas (Return (example_body (PInt 15) (PInt 1) (PInt 1))))
        (serve (DELETE_restaurant 1) example_db_offers).2
  = (Return (Response (JObj [("errors", JList [JStr "validation errors"])]) 400),
     (serve (DELETE_restaurant 1) example_db_offers).2).
Proof.
  apply (post_after_delete_rejected 1
           [("price", PInt 15); ("pizza_id", PInt 1); ("restaurant_id", PInt 1)]
           example_db_offers).
  reflexivity.
Defined.

(** ** One request after another *)

Lemma post_valid_eq d kv p pid rid pz r :
  1 ≤ p ≤ 30 →
  assoc "price" kv = Some (PInt p) →
  assoc "pizza_id" kv = Some (PInt pid) →
  assoc "restaurant_id" kv = Some (PInt rid) →
  pizzas d !! pid = Some pz →
  restaurants d !! rid = Some r →
  (serve (POST_restaurant_pizzas (Return (PDict kv))) d).2 = with_row d p pid rid.
Proof.
  intros Hp Hprice Hpid Hrid Hpz Hr.
  unfold serve, dispatch. rewrite post_dict_eq, Hprice, Hpid, Hrid; simpl.
  rewrite validate_price_int.
  replace (1 <=? p) with true by lia. replace (p <=? 30) with true by lia.
  simpl. by rewrite Hpz, Hr.
Qed.

Lemma restaurant_pizzas_of_with_row d p pid rid :
  restaurant_pizzas_of (with_row d p pid rid) rid
  = query_all (<[next_id (restaurant_pizzas d) := mkRestaurantPizza p pid rid]>
                 (filter (fun kv => restaurant_id kv.2 = rid) (restaurant_pizzas d))).
Proof.
  unfold restaurant_pizzas_of, with_row; simpl.
  by rewrite map_filter_insert_True.
Qed.

Lemma restaurant_pizzas_of_with_row_other d p pid rid other :
  rid ≠ other →
  restaurant_pizzas_of (with_row d p pid rid) other = restaurant_pizzas_of d other.
Proof.
  intros Hne. unfold restaurant_pizzas_of, with_row; simpl.
  rewrite map_filter_insert_False by done.
  by rewrite delete_id by apply next_id_fresh.
Qed.

Lemma restaurant_pizzas_of_delete_other id other d :
  id ≠ other →
  restaurant_pizzas_of (delete_restaurant id d) other = restaurant_pizzas_of d other.
Proof.
  intros Hne. unfold restaurant_pizzas_of, delete_restaurant; simpl. f_equal.
  rewrite map_filter_filter. apply map_filter_ext.
  intros k rp _; simpl. split; [tauto|]. intros <-. split; [done|]. congruence.
Qed.

(** X12: what a POST creates, the next GET of its restaurant shows: the
    list of associations has grown by one and contains the new one, under
    the id the POST returned, with its price and its pizza. *)
Theorem post_then_get_restaurant d kv p pid rid pz r :
  1 ≤ p ≤ 30 →
  assoc "price" kv = Some (PInt p) →
  assoc "pizza_id" kv = Some (PInt pid) →
  assoc "restaurant_id" kv = Some (PInt rid) →
  pizzas d !! pid = Some pz →
  restaurants d !! rid = Some r →
  ∃ items,
    (serve (GET_restaurant rid)
           (serve (POST_restaurant_pizzas (Return (PDict kv))) d).2).1
    = Return (Response
        (JObj [("id", JInt rid);
               ("name", JStr (restaurant_name r));
               ("address", JStr (restaurant_address r));
               ("restaurant_pizzas", JList items)]) 200)
    ∧ JObj [("id", JInt (next_id (restaurant_pizzas d)));
            ("price", JInt p);
            ("pizza_id", JInt pid);
            ("restaurant_id", JInt rid);
            ("pizza", JObj [("id", JInt pid);
                            ("name", JStr (pizza_name pz));
                            ("ingredients", JStr (pizza_ingredients pz))])] ∈ items
    ∧ length items = S (length (restaurant_pizzas_of d rid)).
Proof.
  intros Hp Hprice Hpid Hrid Hpz Hr.
  rewrite (post_valid_eq d kv p pid rid pz r) by done.
  eexists. split_and!.
  - rewrite get_restaurant_eq. unfold with_row at 1; simpl. rewrite Hr.
    reflexivity.
  - apply list_elem_of_In, in_map_iff.
    exists (next_id (restaurant_pizzas d), mkRestaurantPizza p pid rid). split.
    + unfold RestaurantPizza_to_dict_nested, nested_pizza, with_row; simpl.
      by rewrite Hpz.
    + apply list_elem_of_In. rewrite restaurant_pizzas_of_with_row.
      apply elem_of_map_to_list, lookup_insert_eq.
  - rewrite length_map, restaurant_pizzas_of_with_row.
    unfold restaurant_pizzas_of, query_all. rewrite !length_map_to_list.
    apply map_size_insert_None, map_lookup_filter_None. left. apply next_id_fresh.
Qed.

Lemma post_then_get_restaurant_witness :
  ∃ items,
    (serve (GET_restaurant 2)
           (serve (POST_restaurant_pizzas
                     (Return (example_body (PInt 9) (PInt 1) (PInt 2))))
                  example_db_offers).2).1
    = Return (Response
        (JObj [("id", JInt 2);
               ("name", JStr "Kiki");
               ("address", JStr "2 Side St");
               ("restaurant_pizzas", JList items)]) 200)
    ∧ JObj [("id", JInt (next_id (restaurant_pizzas example_db_offers)));
            ("price", JInt 9);
            ("pizza_id", JInt 1);
            ("restaurant_id", JInt 2);
            ("pizza", JObj [("id", JInt 1);
                            ("name", JStr "Margherita");
                            ("ingredients", JStr "tomato,cheese")])] ∈ items
    ∧ length items = S (length (restaurant_pizzas_of example_db_offers 2)).
Proof.
  apply (post_then_get_restaurant example_db_offers
           [("price", PInt 9); ("pizza_id", PInt 1); ("restaurant_id", PInt 2)]
           9 1 2 (mkPizza "Margherita" "tomato,cheese")
           (mkRestaurant "Kiki" "2 Side St"));
    [lia | reflexivity..].
Defined.

(** X13: after the DELETE of an existing restaurant the listing has one
    entry fewer: it shows every other restaurant and not the deleted one. *)
Theorem delete_then_list id d r :
  restaurants d !! id = Some r →
  ∃ items,
    (serve GET_restaurants (serve (DELETE_restaurant id) d).2).1
    = Return (Response (JList items) 200)
    ∧ S (length items) = size (restaurants d)
    ∧ (∀ j, j ∈ items
            ↔ ∃ id' r', id' ≠ id ∧ restaurants d !! id' = Some r'
                        ∧ j = JObj [("id", JInt id');
                                    ("name", JStr (restaurant_name r'));
                                    ("address", JStr (restaurant_address r'))]).
Proof.
  intros Hid. rewrite delete_restaurant_eq, Hid; simpl.
  eexists. split_and!; [reflexivity | |].
  - rewrite listing_length. unfold delete_restaurant; simpl.
    rewrite <- (insert_delete_id (restaurants d) id r Hid) at 2.
    by rewrite map_size_insert_None by apply lookup_delete_eq.
  - intros j. rewrite (listing_elem_of Restaurant_to_dict_flat).
    unfold delete_restaurant; simpl. split.
    + intros (id' & r' & Hlook & ->).
      apply lookup_delete_Some in Hlook as [Hne Hlook]. by exists id', r'.
    + intros (id' & r' & Hne & Hlook & ->). exists id', r'. split; [|done].
      by rewrite lookup_delete_ne.
Qed.

Lemma delete_then_list_witness :
  ∃ items,
    (serve GET_restaurants (serve (DELETE_restaurant 1) example_db_offers).2).1
    = Return (Response (JList items) 200)
    ∧ S (length items) = size (restaurants example_db_offers)
    ∧ (∀ j, j ∈ items
            ↔ ∃ id' r', id' ≠ 1 ∧ restaurants example_db_offers !! id' = Some r'
                        ∧ j = JObj [("id", JInt id');
                                    ("name", JStr (restaurant_name r'));
                                    ("address", JStr (restaurant_address r'))]).
Proof.
  apply (delete_then_list 1 example_db_offers (mkRestaurant "Dominion" "1 Main St")).
  reflexivity.
Defined.

(** X14: a DELETE does not show in the view of another restaurant: GET on
    any other id answers after the DELETE what it answered before. *)
Theorem delete_keeps_other_views id other d :
  id ≠ other →
  (serve (GET_restaurant other) (serve (DELETE_restaurant id) d).2).1
  = (serve (GET_restaurant other) d).1.
Proof.
  intros Hne. rewrite delete_restaurant_eq.
  destruct (restaurants d !! id); [|done]. simpl.
  rewrite !get_restaurant_eq; simpl. rewrite lookup_delete_ne by done.
  destruct (restaurants d !! other) as [ro|]; [|done].
  unfold Restaurant_to_dict.
  by rewrite restaurant_pizzas_of_delete_other.
Qed.

Lemma delete_keeps_other_views_witness :
  (serve (GET_restaurant 2) (serve (DELETE_restaurant 1) example_db_offers).2).1
  = (serve (GET_restaurant 2) example_db_offers).1.
Proof. apply (delete_keeps_other_views 1 2 example_db_offers). lia. Defined.

(** X15: a POST does not show in the view of a restaurant it does not name:
    when the store does not take the restaurant_id of the body for the id
    [other] (it is another int, or null, or a value the store refuses or
    converts to another id), GET on [other] answers after the POST what it
    answered before. *)
Theorem post_keeps_other_views kv other d :
  as_integer d (default PNone (assoc "restaurant_id" kv)) ≠ Some other →
  (serve (GET_restaurant other)
         (serve (POST_restaurant_pizzas (Return (PDict kv))) d).2).1
  = (serve (GET_restaurant other) d).1.
Proof.
  intros Hne. unfold serve at 2, dispatch. rewrite post_dict_eq.
  destruct (validate_price (default PNone (assoc "price" kv))) as [v|]; [|done].
  destruct (as_integer d v) as [p|]; [|done].
  destruct (as_integer d (default PNone (assoc "pizza_id" kv))) as [pid|]; [|done].
  destruct (as_integer d (default PNone (assoc "restaurant_id" kv))) as [rid|];
    [|done].
  destruct (pizzas d !! pid); [|done].
  destruct (restaurants d !! rid); [|done]. simpl.
  rewrite !get_restaurant_eq; simpl.
  destruct (restaurants d !! other) as [ro|]; [|done].
  unfold Restaurant_to_dict.
  rewrite restaurant_pizzas_of_with_row_other by congruence. done.
Qed.

Lemma post_keeps_other_views_witness :
  (serve (GET_restaurant 1)
         (serve (POST_restaurant_pizzas
                   (Return (PDict [("price", PInt 9); ("pizza_id", PInt 1);
                                   ("restaurant_id", PInt 2)])))
                example_db_offers).2).1
  = (serve (GET_restaurant 1) example_db_offers).1.
Proof.
  apply (post_keeps_other_views _ 1 example_db_offers). discriminate.
Defined.

(** ** The size of the answers *)

Lemma list_max_map_le {A : Type} (f : A → nat) (l : list A) (n : nat) :
  (∀ x, In x l → (f x ≤ n)%nat) → (list_max (map f l) ≤ n)%nat.
Proof.
  intros H. apply list_max_le, List.Forall_map, List.Forall_forall. exact H.
Qed.

Lemma depth_nested_pizza d pid : (depth (nested_pizza d pid) ≤ 1)%nat.
Proof. unfold nested_pizza. destruct (pizzas d !! pid); simpl; lia. Qed.

Lemma depth_nested_restaurant d rid : (depth (nested_restaurant d rid) ≤ 1)%nat.
Proof. unfold nested_restaurant. destruct (restaurants d !! rid); simpl; lia. Qed.

Lemma depth_RestaurantPizza_to_dict d k rp :
  (depth (RestaurantPizza_to_dict d k rp) ≤ 2)%nat.
Proof.
  pose proof (depth_nested_pizza d (pizza_id rp)).
  pose proof (depth_nested_restaurant d (restaurant_id rp)).
  unfold RestaurantPizza_to_dict. simpl. lia.
Qed.

Lemma depth_RestaurantPizza_to_dict_nested d k rp :
  (depth (RestaurantPizza_to_dict_nested d k rp) ≤ 2)%nat.
Proof.
  pose proof (depth_nested_pizza d (pizza_id rp)).
  unfold RestaurantPizza_to_dict_nested. simpl. lia.
Qed.

Lemma depth_Restaurant_to_dict d id r :
  (depth (Restaurant_to_dict d id r) ≤ 4)%nat.
Proof.
  unfold Restaurant_to_dict.
  assert (list_max (map depth
            (map (fun kv => RestaurantPizza_to_dict_nested d kv.1 kv.2)
                 (restaurant_pizzas_of d id))) ≤ 2)%nat as H.
  { rewrite List.map_map. apply list_max_map_le. intros [k rp] _.
    apply depth_RestaurantPizza_to_dict_nested. }
  cbn [depth map snd list_max fold_right]. lia.
Qed.

(** X16: however many rows the store holds and however they refer to each
    other, no answer nests lists and objects more than four deep: the
    serialization rules cut every path from a record back to itself. *)
Theorem response_depth_bounded req d resp :
  (serve req d).1 = Return resp → (depth (body resp) ≤ 4)%nat.
Proof.
  destruct req as [|id|id| |[v|e]].
  - intros [= <-]. simpl.
    rewrite List.map_map.
    pose proof (list_max_map_le
                  (fun kv : Z * Restaurant => depth (Restaurant_to_dict_flat kv.1 kv.2))
                  (query_all (restaurants d)) 1) as H.
    specialize (H ltac:(intros; simpl; lia)). lia.
  - rewrite get_restaurant_eq. intros [= <-].
    destruct (restaurants d !! id); simpl body.
    + apply depth_Restaurant_to_dict.
    + simpl. lia.
  - rewrite delete_restaurant_eq.
    destruct (restaurants d !! id); intros [= <-]; simpl; lia.
  - intros [= <-]. simpl.
    rewrite List.map_map.
    pose proof (list_max_map_le
                  (fun kv : Z * Pizza => depth (Pizza_to_dict_flat kv.1 kv.2))
                  (query_all (pizzas d)) 1) as H.
    specialize (H ltac:(intros; simpl; lia)). lia.
  - destruct (post_returns v d) as [->|(p & pid & rid & _ & _ & _ & ->)];
      intros [= <-]; simpl body.
    + simpl. lia.
    + pose proof (depth_RestaurantPizza_to_dict (with_row d p pid rid)
                    (next_id (restaurant_pizzas d)) (mkRestaurantPizza p pid rid)).
      lia.
  - discriminate.
Qed.

Lemma response_depth_bounded_witness :
  (depth (Restaurant_to_dict example_db_offers 1
            (mkRestaurant "Dominion" "1 Main St")) ≤ 4)%nat.
Proof.
  apply (response_depth_bounded (GET_restaurant 1) example_db_offers
           (Response (Restaurant_to_dict example_db_offers 1
                        (mkRestaurant "Dominion" "1 Main St")) 200)).
  reflexivity.
Defined.

(** ** The listing and the view by id *)

Lemma member_Restaurant_to_dict d id r k :
  k ≠ "restaurant_pizzas" →
  member k (Restaurant_to_dict d id r) = member k (Restaurant_to_dict_flat id r).
Proof.
  intros Hk. simpl.
  destruct (String.eqb k "id"); [done|].
  destruct (String.eqb k "name"); [done|].
  destruct (String.eqb k "address"); [done|].
  by apply String.eqb_neq in Hk as ->.
Qed.

(** X17: the listing and the view by id agree. Every entry of
    GET /restaurants carries an id on which GET /restaurants/id answers 200
    with the same id, name and address; and every id on which
    GET /restaurants/id answers 200 has its entry in the listing. *)
Theorem listing_and_view_agree d :
  ∃ items,
    (serve GET_restaurants d).1 = Return (Response (JList items) 200)
    ∧ (∀ j, j ∈ items →
         ∃ id full,
           member "id" j = Some (JInt id)
           ∧ (serve (GET_restaurant id) d).1 = Return (Response full 200)
           ∧ ∀ k, k ≠ "restaurant_pizzas" → member k full = member k j)
    ∧ (∀ id full,
         (serve (GET_restaurant id) d).1 = Return (Response full 200) →
         ∃ j, j ∈ items
              ∧ member "id" j = Some (JInt id)
              ∧ ∀ k, k ≠ "restaurant_pizzas" → member k full = member k j).
Proof.
  exists (map (fun kv => Restaurant_to_dict_flat kv.1 kv.2)
              (query_all (restaurants d))).
  split_and!; [reflexivity | |].
  - intros j Hj.
    apply (listing_elem_of Restaurant_to_dict_flat) in Hj as (id & r & Hid & ->).
    exists id, (Restaurant_to_dict d id r). split_and!; [done | |].
    + by rewrite get_restaurant_eq, Hid.
    + intros k Hk. by apply member_Restaurant_to_dict.
  - intros id full. rewrite get_restaurant_eq.
    destruct (restaurants d !! id) as [r|] eqn:Hid; [|discriminate].
    intros [= <-]. exists (Restaurant_to_dict_flat id r). split_and!; [|done|].
    + apply (listing_elem_of Restaurant_to_dict_flat). by exists id, r.
    + intros k Hk. by apply member_Restaurant_to_dict.
Qed.

(** ** The printed form of the records *)

Lemma string_app_inj_r (s s' t : string) :
  String.length t = 1%nat → s +:+ t = s' +:+ t → s = s'.
Proof.
  intros Ht. destruct t as [|c [|c' t]]; try discriminate. clear Ht.
  revert s'. induction s as [|a s IH]; intros [|a' s']; simpl.
  - done.
  - intros [= <- H]. by destruct s'.
  - intros [= -> H]. by destruct s.
  - intros [= -> H]. f_equal. by apply IH.
Qed.

Lemma string_app_assoc (s t u : string) : (s +:+ t) +:+ u = s +:+ t +:+ u.
Proof.
  induction s as [|c s IH]; [reflexivity|].
  change (String c ((s +:+ t) +:+ u) = String c (s +:+ t +:+ u)).
  by rewrite IH.
Qed.

(** X18: the printed form of a loaded RestaurantPizza tells its price; the
    printed form of a Pizza, which joins name and ingredients with a comma,
    does not tell where the name ends. *)
Theorem repr_tells :
  (∀ rp rp', RestaurantPizza_repr rp = RestaurantPizza_repr rp' →
             price rp = price rp')
  ∧ (∀ name a b,
       Pizza_repr (mkPizza (name +:+ ", " +:+ a) b)
       = Pizza_repr (mkPizza name (a +:+ ", " +:+ b))).
Proof.
  split.
  - intros rp rp' H. unfold RestaurantPizza_repr in H.
    apply (inj (String.app "<RestaurantPizza $")) in H.
    apply string_app_inj_r in H; [|done].
    by apply (inj pretty) in H.
  - intros name a b. unfold Pizza_repr, pizza_name, pizza_ingredients.
    by rewrite !string_app_assoc.
Qed.
